(** * PakkeTracker: the package reconciliation engine of [App.tsx]

    A shallow embedding of the package collection logic of the
    application component: [processParsedResult] (create-or-merge of an
    extraction result), the status toggle and the deletion handlers handed
    to [PackageCard], and the [filteredPackages] view derivation.

    Conventions of the embedding:
    - a TypeScript [string] is a [string]; [string | null] is an
      [option string]; a JavaScript array is a [list], read with [!!] and
      written by index with [<[i:=x]>];
    - [Array.prototype.findIndex] returns a [Z], with [-1] for "not found",
      as in JavaScript;
    - [new Date().toISOString()] and [Math.random()...] read an explicit
      [World]; a handler is a computation in the monad [M], which threads
      the world and can raise (an uncaught [TypeError]);
    - [setPackages] is not executed by the handler: the handler returns the
      [SetStateAction] it passes to [setPackages], and [dispatch] applies
      it to the state React holds at that moment. *)

From Stdlib Require Import ZArith Lia.
From stdpp Require Import base option list strings gmap.

(** ** types.ts *)

Inductive Carrier : Set :=
  | POSTNORD | GLS | DAO | BRING | DHL | UPS | FEDEX | OTHER.

Inductive PackageStatus : Set :=
  | IN_TRANSIT | READY_FOR_PICKUP | PICKED_UP.

#[global] Instance Carrier_eq_dec : EqDecision Carrier.
Proof. solve_decision. Defined.

#[global] Instance PackageStatus_eq_dec : EqDecision PackageStatus.
Proof. solve_decision. Defined.

Module Package.
Record t : Set := mk {
  id : string;
  trackingNumber : string;
  carrier : Carrier;
  sender : string;
  status : PackageStatus;
  receivedDate : string;
  originalText : string;
  lastUpdated : string;
}.
End Package.

Module ParseResult.
Record t : Set := mk {
  trackingNumber : option string;
  carrier : Carrier;
  sender : option string;
  status : PackageStatus;
}.
End ParseResult.

Module TabType.
Inductive t : Set := current | history | settings | map.

#[global] Instance eq_dec : EqDecision t.
Proof. solve_decision. Defined.
End TabType.

(** ** JavaScript primitives used by the component *)

(** Truthiness of a value of type [string | null]: [null] and the empty
    string are falsy, every other string is truthy. *)
Definition truthy (v : option string) : bool :=
  match v with
  | None => false
  | Some s => negb (String.eqb s "")
  end.

(** [a || b] at type [string | null] on the left and [string] on the
    right. *)
Definition js_or (a : option string) (b : string) : string :=
  match a with
  | Some s => if String.eqb s "" then b else s
  | None => b
  end.

(** [arr.findIndex(pred)]: the index of the first element satisfying
    [pred], or [-1]. *)
Fixpoint findIndex_from {A : Type} (pred : A -> bool) (arr : list A) (i : Z) : Z :=
  match arr with
  | [] => (-1)%Z
  | x :: rest => if pred x then i else findIndex_from pred rest (i + 1)%Z
  end.

Definition findIndex {A : Type} (pred : A -> bool) (arr : list A) : Z :=
  findIndex_from pred arr 0%Z.

(** ** The ambient world: clock and random generator *)

Record World : Type := mkWorld {
  (** the successive values of [new Date().toISOString()] *)
  date_iso : nat -> string;
  date_reads : nat;
  (** the successive values of [Math.random().toString(36).substr(2, 9)] *)
  random_id : nat -> string;
  random_draws : nat;
}.

(** A computation reads and advances the world; [None] is an uncaught
    exception. *)
Definition M (A : Type) : Type := World -> option (A * World).

#[global] Instance M_ret : MRet M := fun A x w => Some (x, w).
#[global] Instance M_bind : MBind M := fun A B k m w =>
  match m w with
  | Some (x, w') => k x w'
  | None => None
  end.

Definition throw {A : Type} : M A := fun _ => None.

Definition tick (w : World) : World :=
  mkWorld (date_iso w) (S (date_reads w)) (random_id w) (random_draws w).

Definition draw (w : World) : World :=
  mkWorld (date_iso w) (date_reads w) (random_id w) (S (random_draws w)).

Definition Date_toISOString : M string := fun w =>
  Some (date_iso w (date_reads w), tick w).

Definition Math_random_id : M string := fun w =>
  Some (random_id w (random_draws w), draw w).

(** [arr[i]] whose properties are then read.  Out of range [arr[i]] is
    [undefined]; the embedding raises there, and [processParsedResult_total]
    shows that the handler never reaches that case. *)
Definition index {A : Type} (arr : list A) (i : Z) : M A :=
  match arr !! Z.to_nat i with
  | Some x => mret x
  | None => throw
  end.

(** ** React state of [packages] *)

Inductive SetStateAction : Type :=
  | SetValue (next : list Package.t)
  | SetUpdater (f : list Package.t -> list Package.t).

Definition dispatch (a : SetStateAction) (prev : list Package.t) : list Package.t :=
  match a with
  | SetValue next => next
  | SetUpdater f => f prev
  end.

(** ** App.tsx *)

Definition placeholder_sender : string := "Leverandør".

(** [processParsedResult], as a closure over the [packages] of the render
    that created it.  The result is the argument of the [setPackages] call
    it makes, if any, and its return value. *)
Definition processParsedResult (packages : list Package.t)
    (result : option ParseResult.t) (sourceText : string)
    : M (option SetStateAction * bool) :=
  match result with
  | Some r =>
    match ParseResult.trackingNumber r with
    | Some tn =>
      if truthy (Some tn) then
        let existingIndex :=
          findIndex (fun p => String.eqb (Package.trackingNumber p) tn) packages in
        if (existingIndex >? -1)%Z then
          let updatedPackages := packages in
          old ← index updatedPackages existingIndex;
          now ← Date_toISOString;
          let updatedPackages :=
            <[Z.to_nat existingIndex :=
                Package.mk (Package.id old) (Package.trackingNumber old)
                  (Package.carrier old)
                  (js_or (ParseResult.sender r) (Package.sender old))
                  (ParseResult.status r)
                  (Package.receivedDate old) (Package.originalText old)
                  now]> updatedPackages in
          mret (Some (SetValue updatedPackages), true)
        else
          new_id ← Math_random_id;
          received ← Date_toISOString;
          updated ← Date_toISOString;
          let newPkg :=
            Package.mk new_id tn (ParseResult.carrier r)
              (js_or (ParseResult.sender r) placeholder_sender)
              (ParseResult.status r) received sourceText updated in
          mret (Some (SetUpdater (fun prev => newPkg :: prev)), true)
      else mret (None, false)
    | None => mret (None, false)
    end
  | None => mret (None, false)
  end.

(** The handlers passed to [PackageCard]; each is the updater function
    given to [setPackages]. *)

(** [s === PICKED_UP ? READY_FOR_PICKUP : PICKED_UP] *)
Definition toggled (s : PackageStatus) : PackageStatus :=
  if decide (s = PICKED_UP) then READY_FOR_PICKUP else PICKED_UP.

(** The spread [{...p, status: s}]. *)
Definition with_status (p : Package.t) (s : PackageStatus) : Package.t :=
  Package.mk (Package.id p) (Package.trackingNumber p) (Package.carrier p)
    (Package.sender p) s (Package.receivedDate p) (Package.originalText p)
    (Package.lastUpdated p).

Definition onToggleStatus (id : string) (prev : list Package.t) : list Package.t :=
  List.map (fun p =>
    if String.eqb (Package.id p) id
    then with_status p (toggled (Package.status p))
    else p) prev.

Definition onDelete (id : string) (prev : list Package.t) : list Package.t :=
  List.filter (fun p => negb (String.eqb (Package.id p) id)) prev.

Definition filteredPackages (activeTab : TabType.t) (packages : list Package.t)
    : list Package.t :=
  List.filter (fun p =>
    if decide (activeTab = TabType.current)
    then negb (bool_decide (Package.status p = PICKED_UP))
    else bool_decide (Package.status p = PICKED_UP)) packages.

(** ** The reconciliation contract

    One reconciliation step on a collection: the handler is created by a
    render whose [packages] is the current collection, and the state
    update it requests is applied to that same collection. *)
Definition commit (a : option SetStateAction) (prev : list Package.t) : list Package.t :=
  match a with
  | Some act => dispatch act prev
  | None => prev
  end.

Definition reconcile (result : option ParseResult.t) (sourceText : string)
    (currentPackages : list Package.t) : M (list Package.t * bool) :=
  '(act, accepted) ← processParsedResult currentPackages result sourceText;
  mret (commit act currentPackages, accepted).

(** * Vocabulary of the statements *)

(** ** Runs of a reconciliation step *)

(** The extraction result is absent, or its tracking number is [null] or
    empty. *)
Definition untracked (result : option ParseResult.t) : Prop :=
  match result with
  | None => True
  | Some r =>
    ParseResult.trackingNumber r = None ∨ ParseResult.trackingNumber r = Some ""
  end.

(** The object literal of the update path, for the entry [old] read at
    time [now]. *)
Definition merged (old : Package.t) (r : ParseResult.t) (now : string) : Package.t :=
  Package.mk (Package.id old) (Package.trackingNumber old) (Package.carrier old)
    (js_or (ParseResult.sender r) (Package.sender old))
    (ParseResult.status r)
    (Package.receivedDate old) (Package.originalText old) now.

(** The object literal of the create path, evaluated in world [w]. *)
Definition created (r : ParseResult.t) (tn sourceText : string) (w : World) : Package.t :=
  Package.mk (random_id w (random_draws w)) tn (ParseResult.carrier r)
    (js_or (ParseResult.sender r) placeholder_sender)
    (ParseResult.status r)
    (date_iso w (date_reads w)) sourceText (date_iso w (S (date_reads w))).

(** [old] at index [i] is the first entry of [l] whose tracking number is
    [tn]. *)
Definition first_match (tn : string) (l : list Package.t) (i : nat) (old : Package.t) : Prop :=
  l !! i = Some old ∧ Package.trackingNumber old = tn ∧
  ∀ j y, l !! j = Some y → j < i → Package.trackingNumber y ≠ tn.

(** The three ways a reconciliation step can go. *)
Inductive reconcile_run (result : option ParseResult.t) (sourceText : string)
    (l : list Package.t) (w : World) : list Package.t → bool → World → Prop :=
  | run_rejected :
      untracked result →
      reconcile_run result sourceText l w l false w
  | run_update r tn i old :
      result = Some r → ParseResult.trackingNumber r = Some tn → tn ≠ "" →
      first_match tn l i old →
      reconcile_run result sourceText l w
        (<[i := merged old r (date_iso w (date_reads w))]> l) true (tick w)
  | run_create r tn :
      result = Some r → ParseResult.trackingNumber r = Some tn → tn ≠ "" →
      (∀ p, p ∈ l → Package.trackingNumber p ≠ tn) →
      reconcile_run result sourceText l w
        (created r tn sourceText w :: l) true (tick (tick (draw w))).

(** ** Sample data *)

(** A world whose clock advances between readings. *)
Definition sample_world : World :=
  mkWorld (λ n, if n is 0 then "2024-05-01T10:00:00.000Z"
                else "2024-05-01T10:00:00.001Z") 0
          (λ n, if n is 0 then "k3j9x0q2a" else "p0w8e7r6t") 0.

(** A world whose clock stands still. *)
Definition frozen_world : World :=
  mkWorld (λ _, "2024-05-01T10:00:00.000Z") 0 (λ _, "k3j9x0q2a") 0.

Definition sample_package : Package.t :=
  Package.mk "a1b2c3d4e" "TNT123" GLS "ACME" IN_TRANSIT
    "2024-04-30T08:00:00.000Z" "pakken er på vej" "2024-04-30T08:00:00.000Z".

Definition other_package : Package.t :=
  Package.mk "z9y8x7w6v" "DAO777" DAO "Butik" PICKED_UP
    "2024-04-20T08:00:00.000Z" "afhentet" "2024-04-21T09:00:00.000Z".

Definition sample_result : ParseResult.t :=
  ParseResult.mk (Some "TNT123") GLS None READY_FOR_PICKUP.

Definition untracked_result : ParseResult.t :=
  ParseResult.mk (Some "") OTHER None IN_TRANSIT.

(** ** Uniqueness of tracking numbers *)

(** No two packages of the collection share a tracking number. *)
Definition unique_tracking (l : list Package.t) : Prop :=
  ∀ i j p q, l !! i = Some p → l !! j = Some q →
    Package.trackingNumber p = Package.trackingNumber q → i = j.

(** ** Whitespace *)

Definition is_whitespace (c : Ascii.ascii) : bool :=
  match Ascii.nat_of_ascii c with
  | 9 | 10 | 11 | 12 | 13 | 32 => true
  | _ => false
  end.

Fixpoint all_whitespace (s : string) : bool :=
  match s with
  | EmptyString => true
  | String c rest => is_whitespace c && all_whitespace rest
  end.

(** * The rest of the component *)

(** ** App.tsx: the badge of the "Aktive" tab *)

(** [packages.filter(p => p.status !== PackageStatus.PICKED_UP).length] *)
Definition activeCount (packages : list Package.t) : nat :=
  length (List.filter
            (fun p => negb (bool_decide (Package.status p = PICKED_UP))) packages).

(** ** Sequences of operations on the collection

    The three ways the component changes [packages] after start-up, each
    applied to the current collection. *)
Inductive Op : Type :=
  | OpReconcile (result : option ParseResult.t) (sourceText : string)
  | OpToggle (id : string)
  | OpDelete (id : string).

Definition apply_op (op : Op) (l : list Package.t) : M (list Package.t) :=
  match op with
  | OpReconcile result sourceText =>
      '(l', _) ← reconcile result sourceText l; mret l'
  | OpToggle id => mret (onToggleStatus id l)
  | OpDelete id => mret (onDelete id l)
  end.

Fixpoint apply_ops (ops : list Op) (l : list Package.t) : M (list Package.t) :=
  match ops with
  | [] => mret l
  | op :: rest => l' ← apply_op op l; apply_ops rest l'
  end.

(** Every package has a non-empty tracking number and a non-empty sender,
    and no two packages share a tracking number. *)
Definition well_kept (l : list Package.t) : Prop :=
  unique_tracking l ∧
  ∀ p, p ∈ l → Package.trackingNumber p ≠ "" ∧ Package.sender p ≠ "".

(** ** PackageCard.tsx *)

(** [a || b] at type [string] on both sides. *)
Definition js_or_string (a b : string) : string :=
  if String.eqb a "" then b else a.

(** The string value of a member of the enum [PackageStatus]. *)
Definition PackageStatus_value (s : PackageStatus) : string :=
  match s with
  | IN_TRANSIT => "In Transit"
  | READY_FOR_PICKUP => "Ready for Pickup"
  | PICKED_UP => "Picked Up"
  end.

Module PackageCard.
(** What the card shows of [pkg]: the texts, and the part of each
    [className] that depends on the package. *)
Record t : Set := mk {
  cardClass : string;
  heading : string;
  trackingLabel : string;
  buttonClass : string;
  dotClass : string;
  statusLabel : string;
}.

Definition render (pkg : Package.t) : t :=
  let isPickedUp := bool_decide (Package.status pkg = PICKED_UP) in
  mk (if isPickedUp then "opacity-60 scale-[0.98]" else "hover:shadow-md")
     (js_or_string (Package.sender pkg) "Unknown Sender")
     ("#" ++ js_or_string (Package.trackingNumber pkg) "No ID")
     (if isPickedUp then "bg-blue-500 border-blue-500 text-white"
      else "border-gray-200 text-transparent")
     (if bool_decide (Package.status pkg = READY_FOR_PICKUP)
      then "bg-orange-500 animate-pulse"
      else if bool_decide (Package.status pkg = PICKED_UP) then "bg-green-500"
      else "bg-blue-400")
     (PackageStatus_value (Package.status pkg)).
End PackageCard.

(** ** App.tsx: the state of the component and its event handlers

    The state hooks of [App] and the browser's [localStorage].  A handler
    is created by a render and closes over the state of that render; it is
    embedded as the list of state and storage updates it issues, in order,
    given the values that its awaited external calls resolve to (the
    extraction result, the formatted sync time).  [handle] runs a handler
    created over the current state.  The two [useEffect] hooks, which copy
    [packages] to and from [localStorage] through [JSON], are not part of
    any handler and are not embedded. *)

Module AppState.
Record t : Type := mk {
  packages : list Package.t;
  inputText : string;
  isProcessing : bool;
  activeTab : TabType.t;
  showInput : bool;
  outlookToken : option string;
  lastSync : option string;
}.
End AppState.

Abbreviation Storage := (gmap string string).
















(** ** More sample data *)

Definition sample_ops : list Op :=
  [OpReconcile (Some sample_result) "hello";
   OpToggle "k3j9x0q2a";
   OpReconcile (Some (ParseResult.mk (Some "TNT123") DAO (Some "") IN_TRANSIT))
     "Screenshot: a.png";
   OpReconcile None "";
   OpDelete "missing"].

(** * Properties *)

(** ** JavaScript primitives *)

Lemma truthy_Some_true (s : string) : truthy (Some s) = true ↔ s ≠ "".
Proof.
  unfold truthy. destruct (String.eqb_spec s ""); simpl; split; congruence.
Qed.

Lemma truthy_false (v : option string) :
  truthy v = false ↔ v = None ∨ v = Some "".
Proof.
  destruct v as [s|]; simpl.
  - destruct (String.eqb_spec s ""); simpl; split.
    + intros _. right. congruence.
    + done.
    + done.
    + intros [?|?]; congruence.
  - split; auto.
Qed.

Lemma js_or_truthy (a : option string) (b : string) :
  truthy a = true → Some (js_or a b) = a.
Proof.
  destruct a as [s|]; simpl; [|done].
  destruct (String.eqb s ""); simpl; done.
Qed.

Lemma js_or_falsy (a : option string) (b : string) :
  truthy a = false → js_or a b = b.
Proof.
  destruct a as [s|]; simpl; [|done].
  destruct (String.eqb s ""); simpl; done.
Qed.

Lemma js_or_idem (a : option string) (b : string) :
  js_or a (js_or a b) = js_or a b.
Proof.
  destruct a as [s|]; simpl; [|done].
  destruct (String.eqb s ""); done.
Qed.

Section findIndex.
Context {A : Type} (pred : A → bool).

(** [findIndex] agrees with the library search [list_find]. *)
Lemma findIndex_from_list_find (arr : list A) (i : Z) :
  findIndex_from pred arr i =
    match list_find (λ x, Is_true (pred x)) arr with
    | Some (k, _) => (i + Z.of_nat k)%Z
    | None => (-1)%Z
    end.
Proof.
  revert i. induction arr as [|x rest IH]; intros i; simpl; [done|].
  destruct (pred x) eqn:Hx; simpl.
  - lia.
  - rewrite IH. destruct (list_find _ rest) as [[k y]|]; simpl; lia.
Qed.

Lemma findIndex_found (arr : list A) :
  (findIndex pred arr >? -1)%Z = true →
  ∃ i x, findIndex pred arr = Z.of_nat i ∧ arr !! i = Some x ∧
         pred x = true ∧
         ∀ j y, arr !! j = Some y → j < i → pred y = false.
Proof.
  unfold findIndex. rewrite findIndex_from_list_find.
  destruct (list_find _ arr) as [[k y]|] eqn:Hfind; [|done].
  intros _. apply list_find_Some in Hfind as (Hk & Hy & Hleast).
  exists k, y. split_and!; [lia|done|by apply Is_true_true|].
  intros j z Hj Hlt. specialize (Hleast j z Hj Hlt).
  by destruct (pred z); [destruct Hleast|].
Qed.

Lemma findIndex_first (arr : list A) (i : nat) (x : A) :
  arr !! i = Some x → pred x = true →
  (∀ j y, arr !! j = Some y → j < i → pred y = false) →
  findIndex pred arr = Z.of_nat i.
Proof.
  intros Hi Hx Hleast. unfold findIndex. rewrite findIndex_from_list_find.
  assert (list_find (λ x, Is_true (pred x)) arr = Some (i, x)) as ->; [|lia].
  apply list_find_Some. split_and!; [done|by apply Is_true_true|].
  intros j y Hj Hlt Hy. apply Is_true_true in Hy.
  rewrite (Hleast j y Hj Hlt) in Hy. done.
Qed.

Lemma findIndex_not_found (arr : list A) :
  (findIndex pred arr >? -1)%Z = false ↔ ∀ x, x ∈ arr → pred x = false.
Proof.
  unfold findIndex. rewrite findIndex_from_list_find.
  destruct (list_find _ arr) as [[k y]|] eqn:Hfind.
  - apply list_find_Some in Hfind as (Hk & Hy & _).
    split; [rewrite Z.gtb_ltb, Z.ltb_ge; lia|].
    intros Hall. apply list_elem_of_lookup_2 in Hk.
    rewrite (Hall y Hk) in Hy. done.
  - apply list_find_None in Hfind. split; [|done].
    intros _ x Hin. rewrite Forall_forall in Hfind.
    specialize (Hfind x Hin). by destruct (pred x); [destruct Hfind|].
Qed.

(** Some element satisfies [pred] exactly when the search succeeds. *)
Lemma findIndex_exists (arr : list A) :
  (∃ x, x ∈ arr ∧ pred x = true) → (findIndex pred arr >? -1)%Z = true.
Proof.
  intros (x & Hin & Hx).
  destruct (findIndex pred arr >? -1)%Z eqn:Hfound; [done|].
  rewrite findIndex_not_found in Hfound. rewrite (Hfound x Hin) in Hx. done.
Qed.
End findIndex.

(** ** Runs of [processParsedResult] and [reconcile] *)

Lemma first_match_findIndex tn l i old :
  first_match tn l i old →
  findIndex (λ p, String.eqb (Package.trackingNumber p) tn) l = Z.of_nat i.
Proof.
  intros (Hi & Htn & Hleast).
  apply (findIndex_first _ l i old); [done|by apply String.eqb_eq|].
  intros j y Hj Hlt. apply String.eqb_neq. eauto.
Qed.

Lemma first_match_exists tn l :
  (∃ p, p ∈ l ∧ Package.trackingNumber p = tn) →
  ∃ i old, first_match tn l i old.
Proof.
  intros (p & Hin & Hp).
  destruct (findIndex_found (λ p, String.eqb (Package.trackingNumber p) tn) l)
    as (i & old & _ & Hi & Hold & Hleast).
  { apply findIndex_exists. exists p. split; [done|by apply String.eqb_eq]. }
  exists i, old. split_and!; [done|by apply String.eqb_eq|].
  intros j y Hj Hlt. apply String.eqb_neq. eauto.
Qed.

Lemma first_match_unique tn l i old i' old' :
  first_match tn l i old → first_match tn l i' old' → i = i' ∧ old = old'.
Proof.
  intros (Hi & Htn & Hleast) (Hi' & Htn' & Hleast').
  assert (i = i') as <-.
  { destruct (Nat.lt_trichotomy i i') as [Hlt|[?|Hlt]]; [|done|].
    - destruct (Hleast' i old Hi Hlt Htn).
    - destruct (Hleast i' old' Hi' Hlt Htn'). }
  split; [done|congruence].
Qed.

Section runs.
Context (packages : list Package.t) (sourceText : string) (w : World).

Lemma processParsedResult_untracked result :
  untracked result →
  processParsedResult packages result sourceText w = Some ((None, false), w).
Proof.
  destruct result as [r|]; simpl; [|done].
  intros [Htn|Htn]; rewrite Htn; done.
Qed.

Lemma processParsedResult_update r tn i old :
  ParseResult.trackingNumber r = Some tn → tn ≠ "" →
  first_match tn packages i old →
  processParsedResult packages (Some r) sourceText w =
    Some ((Some (SetValue (<[i := merged old r (date_iso w (date_reads w))]> packages)),
           true), tick w).
Proof.
  intros Hr Hne Hfirst. unfold processParsedResult. rewrite Hr.
  rewrite (proj2 (truthy_Some_true tn) Hne).
  rewrite (first_match_findIndex _ _ _ _ Hfirst).
  destruct Hfirst as (Hi & _ & _).
  assert ((Z.of_nat i >? -1)%Z = true) as -> by (rewrite Z.gtb_ltb, Z.ltb_lt; lia).
  unfold index. rewrite Nat2Z.id, Hi. reflexivity.
Qed.

Lemma processParsedResult_create r tn :
  ParseResult.trackingNumber r = Some tn → tn ≠ "" →
  (∀ p, p ∈ packages → Package.trackingNumber p ≠ tn) →
  processParsedResult packages (Some r) sourceText w =
    Some ((Some (SetUpdater (λ prev, created r tn sourceText w :: prev)),
           true), tick (tick (draw w))).
Proof.
  intros Hr Hne Hnone. unfold processParsedResult. rewrite Hr.
  rewrite (proj2 (truthy_Some_true tn) Hne).
  assert ((findIndex (λ p, String.eqb (Package.trackingNumber p) tn) packages
             >? -1)%Z = false) as ->; [|reflexivity].
  apply findIndex_not_found. intros p Hin. apply String.eqb_neq. auto.
Qed.
End runs.

Lemma reconcile_run_sound result sourceText l w l' accepted w' :
  reconcile_run result sourceText l w l' accepted w' →
  reconcile result sourceText l w = Some ((l', accepted), w').
Proof.
  unfold reconcile, mbind, M_bind.
  destruct 1 as [Hrej|r tn i old -> Hr Hne Hfirst|r tn -> Hr Hne Hnone].
  - by rewrite processParsedResult_untracked.
  - by rewrite (processParsedResult_update _ _ _ r tn i old).
  - by rewrite (processParsedResult_create _ _ _ r tn).
Qed.

(** [reconcile] always returns, along one of the three runs. *)
Lemma reconcile_run_complete result sourceText l w :
  ∃ l' accepted w', reconcile_run result sourceText l w l' accepted w'.
Proof.
  destruct result as [r|]; [|by eexists _, _, _; apply run_rejected].
  destruct (ParseResult.trackingNumber r) as [tn|] eqn:Hr;
    [|by eexists _, _, _; apply run_rejected; left].
  destruct (decide (tn = "")) as [->|Hne];
    [by eexists _, _, _; apply run_rejected; right|].
  destruct (decide (Exists (λ p, Package.trackingNumber p = tn) l)) as [Hex|Hnex].
  - apply Exists_exists in Hex. apply first_match_exists in Hex as (i & old & Hfirst).
    eexists _, _, _. by eapply run_update.
  - eexists _, _, _. eapply run_create; [done..|].
    intros p Hin Hp. apply Hnex, Exists_exists. eauto.
Qed.


(** ** Rejection of untracked extractions *)

(** C1. For every collection and every extraction result that is absent or
    has a null or empty tracking number, the handler requests no state
    update and returns [false]; the reconciliation step therefore returns
    the input collection itself, with [accepted = false], and reads neither
    the clock nor the random generator. *)
Theorem reconcile_untracked_unchanged
    (l : list Package.t) (result : option ParseResult.t)
    (sourceText : string) (w : World) :
  untracked result →
  processParsedResult l result sourceText w = Some ((None, false), w) ∧
  reconcile result sourceText l w = Some ((l, false), w).
Proof.
  intros Hrej. split.
  - by apply processParsedResult_untracked.
  - by apply reconcile_run_sound, run_rejected.
Qed.

Lemma reconcile_untracked_unchanged_witness :
  untracked (Some untracked_result) ∧
  reconcile (Some untracked_result) "hello" [sample_package; other_package]
    sample_world
  = Some (([sample_package; other_package], false), sample_world).
Proof.
  split; [right; reflexivity|].
  apply (reconcile_untracked_unchanged [sample_package; other_package]
           (Some untracked_result) "hello" sample_world).
  right; reflexivity.
Defined.

(** ** The create path *)

(** C2. When the non-empty tracking number of the result matches no package
    of a collection of length [n], the step is accepted and returns a
    collection of length [n + 1]: a new package followed by the old
    collection, unchanged and in order.  The new package takes its tracking
    number, carrier and status from the result and its original text from
    the source text; its identifier is the next draw of the generator, and
    its received date and last update are the two clock readings made
    while the object is built. *)
Theorem reconcile_create_prepends
    (l : list Package.t) (r : ParseResult.t) (tn sourceText : string) (w : World) :
  ParseResult.trackingNumber r = Some tn → tn ≠ "" →
  (∀ p, p ∈ l → Package.trackingNumber p ≠ tn) →
  ∃ newPkg w',
    reconcile (Some r) sourceText l w = Some ((newPkg :: l, true), w') ∧
    length (newPkg :: l) = S (length l) ∧
    Package.trackingNumber newPkg = tn ∧
    Package.carrier newPkg = ParseResult.carrier r ∧
    Package.status newPkg = ParseResult.status r ∧
    Package.originalText newPkg = sourceText ∧
    Package.receivedDate newPkg = date_iso w (date_reads w) ∧
    Package.lastUpdated newPkg = date_iso w (S (date_reads w)) ∧
    Package.id newPkg = random_id w (random_draws w) ∧
    random_draws w' = S (random_draws w) ∧
    date_reads w' = S (S (date_reads w)).
Proof.
  intros Hr Hne Hnone.
  exists (created r tn sourceText w), (tick (tick (draw w))).
  split; [|by split_and!].
  by eapply reconcile_run_sound, run_create.
Qed.

Lemma reconcile_create_prepends_witness :
  ∃ newPkg w',
    reconcile (Some sample_result) "hello" [other_package] sample_world
      = Some (([newPkg; other_package], true), w') ∧
    Package.id newPkg = "k3j9x0q2a" ∧
    Package.receivedDate newPkg = "2024-05-01T10:00:00.000Z" ∧
    Package.lastUpdated newPkg = "2024-05-01T10:00:00.001Z".
Proof.
  destruct (reconcile_create_prepends [other_package] sample_result "TNT123"
              "hello" sample_world) as (newPkg & w' & Hrun & H);
    [reflexivity|discriminate| |].
  - intros p Hin. apply list_elem_of_singleton in Hin as ->. discriminate.
  - exists newPkg, w'. split; [exact Hrun|].
    destruct H as (_ & _ & _ & _ & _ & Hrec & Hupd & Hid & _).
    split_and!; assumption.
Defined.

(** ** The update path *)

(** C3. When the non-empty tracking number of the result matches a package
    of the collection, the step is accepted and returns a collection of the
    same length in which the first package with that tracking number, at
    its old position, has the status of the result and the current clock
    reading as last update; its sender is the sender of the result when
    that is non-null and non-empty, and its prior sender otherwise; its
    carrier, tracking number, received date, original text and identifier
    are as before; every other position holds the package it held
    before. *)
Theorem reconcile_update_in_place
    (l : list Package.t) (r : ParseResult.t) (tn sourceText : string) (w : World) :
  ParseResult.trackingNumber r = Some tn → tn ≠ "" →
  (∃ p, p ∈ l ∧ Package.trackingNumber p = tn) →
  ∃ i old new l' w',
    first_match tn l i old ∧
    reconcile (Some r) sourceText l w = Some ((l', true), w') ∧
    length l' = length l ∧
    l' !! i = Some new ∧
    Package.status new = ParseResult.status r ∧
    Package.lastUpdated new = date_iso w (date_reads w) ∧
    (truthy (ParseResult.sender r) = true →
       Some (Package.sender new) = ParseResult.sender r) ∧
    (truthy (ParseResult.sender r) = false →
       Package.sender new = Package.sender old) ∧
    Package.carrier new = Package.carrier old ∧
    Package.trackingNumber new = Package.trackingNumber old ∧
    Package.receivedDate new = Package.receivedDate old ∧
    Package.originalText new = Package.originalText old ∧
    Package.id new = Package.id old ∧
    (∀ j, j ≠ i → l' !! j = l !! j).
Proof.
  intros Hr Hne Hex.
  destruct (first_match_exists tn l Hex) as (i & old & Hfirst).
  exists i, old, (merged old r (date_iso w (date_reads w))),
    (<[i := merged old r (date_iso w (date_reads w))]> l), (tick w).
  split; [done|]. split; [by eapply reconcile_run_sound, run_update|].
  destruct Hfirst as (Hi & _ & _).
  split_and!; try done.
  - apply length_insert.
  - apply list_lookup_insert_eq. by eapply lookup_lt_Some.
  - apply js_or_truthy.
  - apply js_or_falsy.
  - intros j Hj. by apply list_lookup_insert_ne.
Qed.

Lemma reconcile_update_in_place_witness :
  ∃ new w',
    reconcile (Some sample_result) "hello" [other_package; sample_package]
      sample_world
      = Some (([other_package; new], true), w') ∧
    Package.status new = READY_FOR_PICKUP ∧
    Package.sender new = "ACME" ∧
    Package.lastUpdated new = "2024-05-01T10:00:00.000Z".
Proof.
  destruct (reconcile_update_in_place [other_package; sample_package]
              sample_result "TNT123" "hello" sample_world)
    as (i & old & new & l' & w' & Hfirst & Hrun & Hlen & Hi & Hst & Hupd
        & _ & Hsender & _ & _ & _ & _ & _ & Hothers);
    [reflexivity|discriminate| |].
  - exists sample_package. split; [|reflexivity].
    apply list_elem_of_lookup. by exists 1.
  - destruct (first_match_unique "TNT123" [other_package; sample_package]
                i old 1 sample_package Hfirst) as [-> ->].
    { split_and!; [reflexivity..|].
      intros [|[|j]] y Hy Hlt; [|lia..].
      injection Hy as <-. discriminate. }
    exists new, w'.
    assert (l' = [other_package; new]) as Hl'.
    { destruct l' as [|a [|b [|c l']]]; try discriminate Hlen.
      specialize (Hothers 0 ltac:(lia)). simpl in *. congruence. }
    rewrite <- Hl'. split; [exact Hrun|].
    split_and!; [exact Hst|exact (Hsender eq_refl)|exact Hupd].
Defined.

(** ** The sender placeholder *)

(** C4, as the specification words it, fails on the scenario of the
    specification itself: the package created for a result without sender
    does not carry the sender ["Unknown supplier"]. *)
Lemma placeholder_is_not_unknown_supplier :
  ∃ p w',
    reconcile (Some (ParseResult.mk (Some "TNT123") GLS None IN_TRANSIT))
      "hello" [] sample_world = Some (([p], true), w') ∧
    Package.sender p = "Leverandør" ∧
    Package.sender p ≠ "Unknown supplier".
Proof.
  eexists _, _. split; [reflexivity|]. simpl. split; [reflexivity|discriminate].
Qed.

(** C4 (amended). When the result has a null or empty sender, the package
    created by the create path has the sender ["Leverandør"]. *)
Theorem create_defaults_sender
    (l : list Package.t) (r : ParseResult.t) (tn sourceText : string) (w : World) :
  ParseResult.trackingNumber r = Some tn → tn ≠ "" →
  (∀ p, p ∈ l → Package.trackingNumber p ≠ tn) →
  ParseResult.sender r = None ∨ ParseResult.sender r = Some "" →
  ∃ newPkg w',
    reconcile (Some r) sourceText l w = Some ((newPkg :: l, true), w') ∧
    Package.sender newPkg = "Leverandør".
Proof.
  intros Hr Hne Hnone Hsender.
  exists (created r tn sourceText w), (tick (tick (draw w))).
  split; [by eapply reconcile_run_sound, run_create|].
  simpl. by apply js_or_falsy, truthy_false.
Qed.

Lemma create_defaults_sender_witness :
  ∃ newPkg w',
    reconcile (Some sample_result) "hello" [] sample_world
      = Some (([newPkg], true), w') ∧
    Package.sender newPkg = "Leverandør".
Proof.
  apply (create_defaults_sender [] sample_result "TNT123" "hello" sample_world).
  - reflexivity.
  - discriminate.
  - intros p Hin. by apply elem_of_nil in Hin.
  - left. reflexivity.
Defined.

(** ** Idempotence *)

Lemma first_match_insert tn l i old new :
  first_match tn l i old → Package.trackingNumber new = tn →
  first_match tn (<[i := new]> l) i new.
Proof.
  intros (Hi & Htn & Hleast) Hnew. split_and!; [|done|].
  - apply list_lookup_insert_eq. by eapply lookup_lt_Some.
  - intros j y Hj Hlt. rewrite list_lookup_insert_ne in Hj by lia. eauto.
Qed.

Lemma first_match_head tn p l :
  Package.trackingNumber p = tn → first_match tn (p :: l) 0 p.
Proof. intros Hp. split_and!; [done..|]. intros j y _ Hlt. lia. Qed.

Lemma merged_merged old r now :
  merged (merged old r now) r now = merged old r now.
Proof. unfold merged; simpl. by rewrite js_or_idem. Qed.

Lemma merged_created r tn sourceText w t :
  (∀ n, date_iso w n = t) →
  merged (created r tn sourceText w) r t = created r tn sourceText w.
Proof.
  intros Hclock. unfold merged, created; simpl.
  by rewrite js_or_idem, !Hclock.
Qed.

(** C5. With the clock held at one reading [t], reconciling the same
    result and source text twice in a row yields the collection that one
    reconciliation yields, with the same acceptance; when the result is
    accepted, the second application takes the update path: the handler
    finds the package created or updated by the first and sets the state to
    the collection it already is. *)
Theorem reconcile_idempotent
    (l : list Package.t) (result : option ParseResult.t) (sourceText : string)
    (w : World) (t : string) :
  (∀ n, date_iso w n = t) →
  ∃ l1 accepted w1 w2,
    reconcile result sourceText l w = Some ((l1, accepted), w1) ∧
    reconcile result sourceText l1 w1 = Some ((l1, accepted), w2) ∧
    processParsedResult l1 result sourceText w1 =
      Some ((if accepted then Some (SetValue l1) else None, accepted), w2) ∧
    random_draws w2 = random_draws w1.
Proof.
  intros Hclock.
  destruct (reconcile_run_complete result sourceText l w)
    as (l1 & accepted & w1 & Hrun).
  exists l1, accepted, w1.
  pose proof (reconcile_run_sound _ _ _ _ _ _ _ Hrun) as Hfirst_run.
  destruct Hrun as [Hrej|r tn i old -> Hr Hne Hfirst|r tn -> Hr Hne Hnone].
  - exists w. split_and!; [done..| |done].
    by apply processParsedResult_untracked.
  - set (new := merged old r (date_iso w (date_reads w))) in *.
    assert (first_match tn (<[i := new]> l) i new) as Hfirst'
      by (apply (first_match_insert tn l i old new);
          [done|by destruct Hfirst as (_ & ? & _)]).
    assert (<[i := merged new r (date_iso (tick w) (date_reads (tick w)))]>
              (<[i := new]> l) = <[i := new]> l) as Hsame.
    { rewrite list_insert_insert_eq. unfold new. simpl.
      by rewrite !Hclock, merged_merged. }
    exists (tick (tick w)). split_and!; [done| | |done].
    + rewrite <- Hsame at 2.
      by eapply reconcile_run_sound, run_update.
    + rewrite <- Hsame at 2.
      by eapply processParsedResult_update.
  - set (new := created r tn sourceText w) in *.
    set (w1 := tick (tick (draw w))) in *.
    assert (first_match tn (new :: l) 0 new) as Hfirst' by by apply first_match_head.
    assert (<[0 := merged new r (date_iso w1 (date_reads w1))]> (new :: l)
            = new :: l) as Hsame.
    { simpl. unfold new. by rewrite Hclock, (merged_created _ _ _ _ t). }
    exists (tick w1). split_and!; [done| | |done].
    + rewrite <- Hsame at 2.
      by eapply reconcile_run_sound, run_update.
    + rewrite <- Hsame at 2.
      by eapply processParsedResult_update.
Qed.

Lemma reconcile_idempotent_witness :
  ∃ l1 w1 w2,
    reconcile (Some sample_result) "hello" [other_package] frozen_world
      = Some ((l1, true), w1) ∧
    reconcile (Some sample_result) "hello" l1 w1 = Some ((l1, true), w2).
Proof.
  destruct (reconcile_idempotent [other_package] (Some sample_result) "hello"
              frozen_world "2024-05-01T10:00:00.000Z")
    as (l1 & accepted & w1 & w2 & Hone & Htwo & _).
  - intros n. reflexivity.
  - assert (accepted = true) as -> by (vm_compute in Hone; congruence).
    exists l1, w1, w2. split; assumption.
Defined.

(** ** Array methods *)

(** [arr.map(f)] and [arr.filter(f)] in terms of the list library. *)
Lemma array_map_lookup {A B : Type} (f : A → B) (arr : list A) (i : nat) :
  List.map f arr !! i = f <$> arr !! i.
Proof.
  revert i. induction arr as [|x rest IH]; intros [|i]; simpl; auto.
Qed.

Lemma array_map_fmap {A B : Type} (f : A → B) (arr : list A) :
  List.map f arr = list_fmap A B f arr.
Proof. induction arr as [|x rest IH]; simpl; [done|]. by rewrite IH. Qed.

Lemma array_filter_filter {A : Type} (f : A → bool) (arr : list A) :
  List.filter f arr = filter (λ x, Is_true (f x)) arr.
Proof.
  induction arr as [|x rest IH]; simpl; [done|].
  destruct (f x) eqn:Hx.
  - rewrite filter_cons_True by (by apply Is_true_true_2). by rewrite IH.
  - rewrite filter_cons_False by (by apply Is_true_false_2). done.
Qed.

(** ** The status toggle *)

Lemma onToggleStatus_lookup (id : string) (l : list Package.t) (i : nat) :
  onToggleStatus id l !! i =
    (λ p, if String.eqb (Package.id p) id
          then with_status p (toggled (Package.status p)) else p) <$> l !! i.
Proof. unfold onToggleStatus. apply array_map_lookup. Qed.

(** C6. For every package of the collection with the given identifier, the
    toggle maps [PICKED_UP] to [READY_FOR_PICKUP] and both [IN_TRANSIT] and
    [READY_FOR_PICKUP] to [PICKED_UP]; toggling twice from
    [READY_FOR_PICKUP] gives [READY_FOR_PICKUP], and neither one nor two
    toggles ever give [IN_TRANSIT]. *)
Theorem toggle_binary_collapse
    (id : string) (l : list Package.t) (i : nat) (p : Package.t) :
  l !! i = Some p → Package.id p = id →
  ∃ q q2,
    onToggleStatus id l !! i = Some q ∧
    onToggleStatus id (onToggleStatus id l) !! i = Some q2 ∧
    (Package.status p = PICKED_UP → Package.status q = READY_FOR_PICKUP) ∧
    (Package.status p = IN_TRANSIT → Package.status q = PICKED_UP) ∧
    (Package.status p = READY_FOR_PICKUP → Package.status q = PICKED_UP) ∧
    (Package.status p = READY_FOR_PICKUP →
       Package.status q2 = READY_FOR_PICKUP) ∧
    Package.status q ≠ IN_TRANSIT ∧
    Package.status q2 ≠ IN_TRANSIT.
Proof.
  intros Hi Hid. apply String.eqb_eq in Hid.
  exists (with_status p (toggled (Package.status p))),
    (with_status p (toggled (toggled (Package.status p)))).
  rewrite !onToggleStatus_lookup, Hi. simpl. rewrite Hid. simpl. rewrite Hid.
  split; [done|]. split; [done|].
  destruct (Package.status p); split_and!; done.
Qed.

Lemma toggle_binary_collapse_witness :
  ∃ q q2,
    onToggleStatus "a1b2c3d4e" [other_package; sample_package] !! 1 = Some q ∧
    onToggleStatus "a1b2c3d4e"
      (onToggleStatus "a1b2c3d4e" [other_package; sample_package]) !! 1
      = Some q2 ∧
    Package.status q = PICKED_UP ∧
    Package.status q2 ≠ IN_TRANSIT.
Proof.
  destruct (toggle_binary_collapse "a1b2c3d4e" [other_package; sample_package]
              1 sample_package)
    as (q & q2 & Hq & Hq2 & _ & Htransit & _ & _ & _ & Hnever);
    [reflexivity|reflexivity|].
  exists q, q2. split_and!; [exact Hq|exact Hq2|exact (Htransit eq_refl)|exact Hnever].
Defined.

(** C9. A toggle keeps the length of the collection, and at every position
    the package keeps its identifier, tracking number, carrier, sender,
    received date, original text and last update; a package whose
    identifier is not the given one is unchanged altogether. *)
Theorem toggle_changes_status_only (id : string) (l : list Package.t) :
  length (onToggleStatus id l) = length l ∧
  ∀ i p, l !! i = Some p →
    ∃ q, onToggleStatus id l !! i = Some q ∧
      Package.id q = Package.id p ∧
      Package.trackingNumber q = Package.trackingNumber p ∧
      Package.carrier q = Package.carrier p ∧
      Package.sender q = Package.sender p ∧
      Package.receivedDate q = Package.receivedDate p ∧
      Package.originalText q = Package.originalText p ∧
      Package.lastUpdated q = Package.lastUpdated p ∧
      (Package.id p ≠ id → q = p).
Proof.
  split; [apply length_map|].
  intros i p Hi. rewrite onToggleStatus_lookup, Hi. simpl.
  destruct (String.eqb_spec (Package.id p) id) as [Heq|Hneq].
  - eexists. split; [done|]. by split_and!.
  - exists p. by split_and!.
Qed.

Lemma toggle_changes_status_only_witness :
  ∃ q, onToggleStatus "a1b2c3d4e" [other_package; sample_package] !! 1 = Some q ∧
       Package.lastUpdated q = "2024-04-30T08:00:00.000Z" ∧
       onToggleStatus "a1b2c3d4e" [other_package; sample_package] !! 0
         = Some other_package.
Proof.
  pose proof (toggle_changes_status_only "a1b2c3d4e"
                [other_package; sample_package]) as [_ Hframe].
  destruct (Hframe 1 sample_package eq_refl)
    as (q & Hq & _ & _ & _ & _ & _ & _ & Hupd & _).
  destruct (Hframe 0 other_package eq_refl)
    as (q' & Hq' & _ & _ & _ & _ & _ & _ & _ & Hsame).
  exists q. split_and!; [exact Hq|exact Hupd|].
  rewrite Hq'. f_equal. apply Hsame. discriminate.
Defined.

(** ** The view filter *)

Lemma filteredPackages_current (packages : list Package.t) :
  filteredPackages TabType.current packages =
    filter (λ p, Package.status p ≠ PICKED_UP) packages.
Proof.
  unfold filteredPackages. rewrite array_filter_filter.
  apply list_filter_iff. intros p. simpl.
  rewrite negb_True, bool_decide_spec. done.
Qed.

Lemma filteredPackages_history (packages : list Package.t) :
  filteredPackages TabType.history packages =
    filter (λ p, Package.status p = PICKED_UP) packages.
Proof.
  unfold filteredPackages. rewrite array_filter_filter.
  apply list_filter_iff. intros p. simpl.
  rewrite bool_decide_spec. done.
Qed.

(** C7. The "current" view holds exactly the packages whose status is not
    [PICKED_UP], the "history" view exactly those whose status is
    [PICKED_UP]; each view is a subsequence of the collection, so it keeps
    its order; and the two views together are a rearrangement of the
    collection, so every package is in exactly one of them. *)
Theorem filteredPackages_partition (packages : list Package.t) :
  (∀ p, p ∈ filteredPackages TabType.current packages ↔
        p ∈ packages ∧ Package.status p ≠ PICKED_UP) ∧
  (∀ p, p ∈ filteredPackages TabType.history packages ↔
        p ∈ packages ∧ Package.status p = PICKED_UP) ∧
  filteredPackages TabType.current packages `sublist_of` packages ∧
  filteredPackages TabType.history packages `sublist_of` packages ∧
  filteredPackages TabType.history packages
    ++ filteredPackages TabType.current packages ≡ₚ packages ∧
  length (filteredPackages TabType.current packages)
    + length (filteredPackages TabType.history packages) = length packages.
Proof.
  rewrite filteredPackages_current, filteredPackages_history.
  pose proof (filter_app_complement (λ p, Package.status p = PICKED_UP) packages)
    as Hperm.
  split_and!.
  - intros p. rewrite list_elem_of_filter. tauto.
  - intros p. rewrite list_elem_of_filter. tauto.
  - apply sublist_filter.
  - apply sublist_filter.
  - exact Hperm.
  - apply Permutation_length in Hperm. rewrite length_app in Hperm. lia.
Qed.

(** ** Uniqueness of tracking numbers *)

Lemma unique_tracking_NoDup (l : list Package.t) :
  unique_tracking l ↔ NoDup (Package.trackingNumber <$> l).
Proof.
  rewrite NoDup_alt. unfold unique_tracking. split.
  - intros Huniq i j tn. rewrite !list_lookup_fmap.
    destruct (l !! i) as [p|] eqn:Hi; [|done].
    destruct (l !! j) as [q|] eqn:Hj; [|done].
    simpl. intros [= <-] [= Hq]. by eapply Huniq.
  - intros Hnodup i j p q Hi Hj Heq.
    apply (Hnodup i j (Package.trackingNumber p));
      rewrite list_lookup_fmap; [by rewrite Hi|by rewrite Hj, Heq].
Qed.

Lemma reconcile_run_unique result sourceText l w l' accepted w' :
  reconcile_run result sourceText l w l' accepted w' →
  unique_tracking l → unique_tracking l'.
Proof.
  rewrite !unique_tracking_NoDup.
  destruct 1 as [Hrej|r tn i old -> Hr Hne Hfirst|r tn -> Hr Hne Hnone];
    intros Hnodup.
  - done.
  - destruct Hfirst as (Hi & _ & _).
    rewrite list_fmap_insert, list_insert_id; [done|].
    by rewrite list_lookup_fmap, Hi.
  - rewrite fmap_cons. apply NoDup_cons. split; [|done].
    simpl. intros (p & Hp & Hin)%list_elem_of_fmap. by apply (Hnone p).
Qed.

Lemma onToggleStatus_trackingNumbers (id : string) (l : list Package.t) :
  Package.trackingNumber <$> onToggleStatus id l = Package.trackingNumber <$> l.
Proof.
  unfold onToggleStatus. rewrite array_map_fmap, <- list_fmap_compose.
  apply list_fmap_ext. intros i p _. simpl.
  by destruct (String.eqb (Package.id p) id).
Qed.

Lemma onDelete_sublist (id : string) (l : list Package.t) :
  onDelete id l `sublist_of` l.
Proof. unfold onDelete. rewrite array_filter_filter. apply sublist_filter. Qed.

(** C8. If no two packages of a collection share a tracking number, then
    the same holds of the collection returned by any reconciliation step
    (which always returns), of the collection after any status toggle, and
    of the collection after any deletion. *)
Theorem unique_tracking_preserved (l : list Package.t) :
  unique_tracking l →
  (∀ result sourceText w, ∃ l' accepted w',
     reconcile result sourceText l w = Some ((l', accepted), w') ∧
     unique_tracking l') ∧
  (∀ id, unique_tracking (onToggleStatus id l)) ∧
  (∀ id, unique_tracking (onDelete id l)).
Proof.
  intros Huniq. split_and!.
  - intros result sourceText w.
    destruct (reconcile_run_complete result sourceText l w)
      as (l' & accepted & w' & Hrun).
    exists l', accepted, w'. split.
    + by apply reconcile_run_sound.
    + by eapply reconcile_run_unique.
  - intros id. apply unique_tracking_NoDup.
    rewrite onToggleStatus_trackingNumbers. by apply unique_tracking_NoDup.
  - intros id. apply unique_tracking_NoDup.
    apply (sublist_NoDup _ (Package.trackingNumber <$> l));
      [by apply unique_tracking_NoDup|].
    apply fmap_sublist, onDelete_sublist.
Qed.

Lemma unique_tracking_preserved_witness :
  unique_tracking [other_package; sample_package] ∧
  (∃ l' accepted w',
     reconcile (Some sample_result) "hello" [other_package; sample_package]
       sample_world = Some ((l', accepted), w') ∧
     unique_tracking l') ∧
  unique_tracking (onToggleStatus "a1b2c3d4e" [other_package; sample_package]) ∧
  unique_tracking (onDelete "a1b2c3d4e" [other_package; sample_package]).
Proof.
  assert (unique_tracking [other_package; sample_package]) as Huniq.
  { intros [|[|i]] [|[|j]] p q Hp Hq Heq; simpl in *;
      try discriminate; try reflexivity.
    - injection Hp as <-. injection Hq as <-. discriminate.
    - injection Hp as <-. injection Hq as <-. discriminate. }
  split; [exact Huniq|].
  destruct (unique_tracking_preserved [other_package; sample_package] Huniq)
    as (Hrec & Htog & Hdel).
  split_and!; [apply Hrec|apply Htog|apply Hdel].
Defined.

(** The statement above is about a handler created over the current
    collection.  Two handlers created by the same render (two submissions
    in flight at once, which the design leaves undefined) both search the
    collection of that render: the second does not see the package the
    first has created, and prepends another with the same tracking
    number. *)
Example overlapping_submissions_duplicate :
  ∃ act1 act2 w1 w2,
    processParsedResult [] (Some sample_result) "hello" sample_world
      = Some ((Some act1, true), w1) ∧
    processParsedResult [] (Some sample_result) "Screenshot: a.png" w1
      = Some ((Some act2, true), w2) ∧
    ¬ unique_tracking (dispatch act2 (dispatch act1 [])).
Proof.
  eexists _, _, _, _. split; [by vm_compute|]. split; [by vm_compute|].
  simpl. intros Huniq.
  specialize (Huniq 0 1 _ _ eq_refl eq_refl eq_refl). discriminate.
Qed.

(** ** Exactness of the emptiness test *)

(** C10. A result whose tracking number is a non-empty string of
    whitespace only is accepted, and the returned collection holds a
    package with exactly that tracking number and the status of the
    result: the package created at the front when no package had that
    tracking number, the merged package otherwise.  In general a
    reconciliation step returns [accepted = false] exactly when the result
    is absent or its tracking number is null or the empty string. *)
Theorem tracking_number_emptiness_is_exact :
  (∀ (l : list Package.t) (r : ParseResult.t) (tn sourceText : string) (w : World),
     ParseResult.trackingNumber r = Some tn →
     tn ≠ "" → all_whitespace tn = true →
     ∃ l' w' p,
       reconcile (Some r) sourceText l w = Some ((l', true), w') ∧
       p ∈ l' ∧
       Package.trackingNumber p = tn ∧
       Package.status p = ParseResult.status r ∧
       ((∀ q, q ∈ l → Package.trackingNumber q ≠ tn) → l' = p :: l)) ∧
  (∀ (l : list Package.t) (result : option ParseResult.t) (sourceText : string)
     (w : World),
     ∃ l' accepted w',
       reconcile result sourceText l w = Some ((l', accepted), w') ∧
       (accepted = false ↔ untracked result)).
Proof.
  split.
  - intros l r tn sourceText w Hr Hne _.
    destruct (reconcile_run_complete (Some r) sourceText l w)
      as (l' & accepted & w' & Hrun).
    pose proof (reconcile_run_sound _ _ _ _ _ _ _ Hrun) as Heq.
    destruct Hrun as [[Hrej|Hrej]|r' tn' i old [= <-] Hr' Hne' Hfirst
                      |r' tn' [= <-] Hr' Hne' Hnone].
    + congruence.
    + congruence.
    + assert (tn' = tn) as -> by congruence.
      destruct Hfirst as (Hi & Htn & Hleast).
      eexists _, _, (merged old r (date_iso w (date_reads w))).
      split; [exact Heq|]. split_and!; [|done..|].
      * apply list_elem_of_insert. by eapply lookup_lt_Some.
      * intros Hnone. destruct (Hnone old); [|done].
        by eapply list_elem_of_lookup_2.
    + assert (tn' = tn) as -> by congruence.
      eexists _, _, (created r tn sourceText w).
      split; [exact Heq|]. split_and!; [apply list_elem_of_here|done..].
  - intros l result sourceText w.
    destruct (reconcile_run_complete result sourceText l w)
      as (l' & accepted & w' & Hrun).
    exists l', accepted, w'. split; [by apply reconcile_run_sound|].
    destruct Hrun as [Hrej|r tn i old -> Hr Hne Hfirst|r tn -> Hr Hne Hnone].
    + done.
    + split; [done|]. simpl. rewrite Hr. intros [?|?]; congruence.
    + split; [done|]. simpl. rewrite Hr. intros [?|?]; congruence.
Qed.

Lemma tracking_number_emptiness_is_exact_witness :
  ∃ l' w' p,
    reconcile (Some (ParseResult.mk (Some " ") OTHER None IN_TRANSIT)) "hello"
      [sample_package] sample_world = Some ((l', true), w') ∧
    l' = [p; sample_package] ∧
    Package.trackingNumber p = " ".
Proof.
  destruct tracking_number_emptiness_is_exact as [Hblank _].
  destruct (Hblank [sample_package]
              (ParseResult.mk (Some " ") OTHER None IN_TRANSIT) " " "hello"
              sample_world)
    as (l' & w' & p & Hrun & _ & Htn & _ & Hfront);
    [reflexivity|discriminate|reflexivity|].
  exists l', w', p. split_and!; [exact Hrun| |exact Htn].
  apply Hfront. intros q Hq. apply list_elem_of_singleton in Hq as ->.
  discriminate.
Defined.

(** * Further properties of the component *)

(** ** Deletion *)

Lemma onDelete_filter (id : string) (l : list Package.t) :
  onDelete id l = filter (λ p, Package.id p ≠ id) l.
Proof.
  unfold onDelete. rewrite array_filter_filter.
  apply list_filter_iff. intros p.
  rewrite negb_True, Is_true_true, String.eqb_eq. done.
Qed.

Lemma onDelete_cons (id : string) (p : Package.t) (l : list Package.t) :
  onDelete id (p :: l) =
    if String.eqb (Package.id p) id then onDelete id l else p :: onDelete id l.
Proof. unfold onDelete. simpl. by destruct (String.eqb (Package.id p) id). Qed.

Lemma onDelete_absent (id : string) (l : list Package.t) :
  (∀ p, p ∈ l → Package.id p ≠ id) → onDelete id l = l.
Proof.
  induction l as [|p l IH]; intros Hall; [done|].
  rewrite onDelete_cons.
  destruct (String.eqb_spec (Package.id p) id) as [Heq|Hne].
  - destruct (Hall p); [apply list_elem_of_here|done].
  - rewrite IH; [done|]. intros q Hq. apply Hall. by apply list_elem_of_further.
Qed.

(** X1. After a deletion the collection holds exactly the packages whose
    identifier is not the deleted one, in their old order; every package
    with that identifier is gone, also when several share it. *)
Theorem onDelete_removes_exactly (id : string) (l : list Package.t) :
  (∀ p, p ∈ onDelete id l ↔ p ∈ l ∧ Package.id p ≠ id) ∧
  onDelete id l `sublist_of` l ∧
  length (onDelete id l)
    + length (filter (λ p, Package.id p = id) l) = length l.
Proof.
  split_and!.
  - intros p. rewrite onDelete_filter, list_elem_of_filter. tauto.
  - apply onDelete_sublist.
  - rewrite onDelete_filter.
    pose proof (filter_app_complement (λ p, Package.id p = id) l) as Hperm.
    apply Permutation_length in Hperm. rewrite length_app in Hperm. lia.
Qed.

(** X2. A deletion leaves the collection as it is exactly when no package
    has the given identifier; deleting the same identifier again changes
    nothing. *)
Theorem onDelete_noop_iff (id : string) (l : list Package.t) :
  (onDelete id l = l ↔ ∀ p, p ∈ l → Package.id p ≠ id) ∧
  onDelete id (onDelete id l) = onDelete id l.
Proof.
  split.
  - split; [|apply onDelete_absent].
    intros Heq p Hin. rewrite <- Heq, onDelete_filter in Hin.
    by apply list_elem_of_filter in Hin as [? _].
  - apply onDelete_absent. intros p Hin.
    rewrite onDelete_filter in Hin. by apply list_elem_of_filter in Hin as [? _].
Qed.

(** ** How the handlers compose *)

Lemma toggle_keeps_id (id : string) (p : Package.t) :
  Package.id (if String.eqb (Package.id p) id
              then with_status p (toggled (Package.status p)) else p)
  = Package.id p.
Proof. by destruct (String.eqb (Package.id p) id). Qed.

Lemma onToggleStatus_cons (id : string) (p : Package.t) (l : list Package.t) :
  onToggleStatus id (p :: l) =
    (if String.eqb (Package.id p) id
     then with_status p (toggled (Package.status p)) else p)
    :: onToggleStatus id l.
Proof. reflexivity. Qed.

(** X3. Toggles and deletions commute with one another, for equal as for
    different identifiers: the order in which two such requests reach the
    collection does not matter. *)
Theorem handlers_commute (a b : string) (l : list Package.t) :
  onDelete a (onDelete b l) = onDelete b (onDelete a l) ∧
  onToggleStatus a (onToggleStatus b l) = onToggleStatus b (onToggleStatus a l) ∧
  onDelete a (onToggleStatus b l) = onToggleStatus b (onDelete a l).
Proof.
  split_and!.
  - induction l as [|p l IH]; [done|].
    rewrite !onDelete_cons.
    destruct (String.eqb (Package.id p) a) eqn:Ha,
             (String.eqb (Package.id p) b) eqn:Hb;
      rewrite ?onDelete_cons, ?Ha, ?Hb, IH; done.
  - induction l as [|p l IH]; [done|].
    rewrite !onToggleStatus_cons, IH. f_equal.
    destruct (String.eqb (Package.id p) a) eqn:Ha,
             (String.eqb (Package.id p) b) eqn:Hb;
      simpl; rewrite ?Ha, ?Hb; done.
  - induction l as [|p l IH]; [done|].
    rewrite onToggleStatus_cons, !onDelete_cons, toggle_keeps_id.
    destruct (String.eqb (Package.id p) a) eqn:Ha; [done|].
    by rewrite onToggleStatus_cons, IH.
Qed.

(** ** Repeated toggles *)

Lemma with_status_same (p : Package.t) : with_status p (Package.status p) = p.
Proof. by destruct p. Qed.

Lemma toggled_twice (s : PackageStatus) :
  toggled (toggled s) = s ↔ s ≠ IN_TRANSIT.
Proof. destruct s; compute; split; congruence. Qed.

Lemma toggle_twice_pointwise (id : string) (p : Package.t) :
  let f := λ p, if String.eqb (Package.id p) id
                then with_status p (toggled (Package.status p)) else p in
  f (f p) = p ↔ (Package.id p = id → Package.status p ≠ IN_TRANSIT).
Proof.
  simpl. destruct (String.eqb_spec (Package.id p) id) as [Heq|Hne]; simpl.
  - apply String.eqb_eq in Heq as Heqb. rewrite Heqb. simpl.
    rewrite <- toggled_twice. split.
    + intros Hp _. by apply (f_equal Package.status) in Hp.
    + intros Hs. unfold with_status; simpl. rewrite (Hs Heq). by destruct p.
  - apply String.eqb_neq in Hne as Hneb. rewrite Hneb. split; done.
Qed.

(** X4. Two toggles of the same identifier give the collection back
    exactly when no package with that identifier was [IN_TRANSIT]; a third
    toggle always gives what the first one gave. *)
Theorem double_toggle_restores_iff (id : string) (l : list Package.t) :
  (onToggleStatus id (onToggleStatus id l) = l ↔
     ∀ p, p ∈ l → Package.id p = id → Package.status p ≠ IN_TRANSIT) ∧
  onToggleStatus id (onToggleStatus id (onToggleStatus id l))
    = onToggleStatus id l.
Proof.
  split.
  - induction l as [|p l IH].
    + split; [|done]. intros _ p Hin. by apply elem_of_nil in Hin.
    + rewrite !onToggleStatus_cons. split.
      * intros Heq. injection Heq as Hp Hl.
        intros q Hq. apply elem_of_cons in Hq as [->|Hq].
        -- by apply (toggle_twice_pointwise id p).
        -- by apply IH.
      * intros Hall. f_equal.
        -- apply (toggle_twice_pointwise id p), Hall, list_elem_of_here.
        -- apply IH. intros q Hq. by apply Hall, list_elem_of_further.
  - induction l as [|p l IH]; [done|].
    rewrite !onToggleStatus_cons, IH. f_equal.
    destruct (String.eqb (Package.id p) id) eqn:Hid; simpl; rewrite ?Hid; [|done].
    simpl. rewrite Hid. simpl. unfold with_status; simpl.
    by destruct (Package.status p).
Qed.

(** ** Toggles and the two views *)

Lemma filteredPackages_cons (tab : TabType.t) (p : Package.t) (l : list Package.t) :
  filteredPackages tab (p :: l) =
    if (if decide (tab = TabType.current)
        then negb (bool_decide (Package.status p = PICKED_UP))
        else bool_decide (Package.status p = PICKED_UP))
    then p :: filteredPackages tab l else filteredPackages tab l.
Proof. reflexivity. Qed.

Lemma onToggleStatus_elem (id : string) (l : list Package.t) (p : Package.t) :
  p ∈ l → Package.id p = id →
  with_status p (toggled (Package.status p)) ∈ onToggleStatus id l.
Proof.
  intros Hin Hid. unfold onToggleStatus. rewrite array_map_fmap.
  apply list_elem_of_fmap. exists p. split; [|done].
  apply String.eqb_eq in Hid. by rewrite Hid.
Qed.

(** X5. A toggle leaves each view as it was for the packages of other
    identifiers.  A package with the toggled identifier shows up in the
    "current" view afterwards exactly when it had been picked up, and in
    the "history" view exactly when it had not.  The badge of the "Aktive"
    tab then counts the active packages of other identifiers and the
    packages of this identifier that had been picked up. *)
Theorem toggle_switches_view (id : string) (l : list Package.t) :
  (∀ tab, onDelete id (filteredPackages tab (onToggleStatus id l))
          = onDelete id (filteredPackages tab l)) ∧
  (∀ p, p ∈ l → Package.id p = id →
     (with_status p (toggled (Package.status p))
        ∈ filteredPackages TabType.current (onToggleStatus id l)
      ↔ Package.status p = PICKED_UP) ∧
     (with_status p (toggled (Package.status p))
        ∈ filteredPackages TabType.history (onToggleStatus id l)
      ↔ Package.status p ≠ PICKED_UP)) ∧
  activeCount (onToggleStatus id l)
    = activeCount (onDelete id l)
      + length (filter (λ p, Package.id p = id ∧ Package.status p = PICKED_UP) l).
Proof.
  split_and!.
  - intros tab. induction l as [|p l IH]; [done|].
    rewrite onToggleStatus_cons, !filteredPackages_cons.
    destruct (String.eqb (Package.id p) id) eqn:Hid.
    + repeat case_match; rewrite ?onDelete_cons; simpl; rewrite ?Hid; exact IH.
    + repeat case_match; rewrite ?onDelete_cons, ?Hid, IH; done.
  - intros p Hin Hid.
    rewrite filteredPackages_current, filteredPackages_history.
    rewrite !list_elem_of_filter. simpl.
    pose proof (onToggleStatus_elem id l p Hin Hid) as Helem.
    split; (split; [intros [Hs _]|intros Hs; split; [|exact Helem]]);
      destruct (Package.status p); compute in *; congruence.
  - unfold activeCount. induction l as [|p l IH]; [done|].
    rewrite onToggleStatus_cons, onDelete_cons, filter_cons.
    destruct (String.eqb_spec (Package.id p) id) as [Heq|Hne]; simpl.
    + destruct (Package.status p) eqn:Hs; simpl.
      * rewrite decide_False by (intros [_ ?]; done). simpl in *. exact IH.
      * rewrite decide_False by (intros [_ ?]; done). simpl in *. exact IH.
      * rewrite decide_True by done. simpl in *. rewrite IH. lia.
    + rewrite decide_False by (intros [? _]; done).
      destruct (bool_decide (Package.status p = PICKED_UP)); simpl in *;
        rewrite IH; done.
Qed.

Lemma toggle_switches_view_witness :
  with_status sample_package PICKED_UP
    ∈ filteredPackages TabType.history
        (onToggleStatus "a1b2c3d4e" [other_package; sample_package]) ∧
  activeCount (onToggleStatus "a1b2c3d4e" [other_package; sample_package]) = 0.
Proof.
  destruct (toggle_switches_view "a1b2c3d4e" [other_package; sample_package])
    as (_ & Hmoves & Hcount).
  destruct (Hmoves sample_package) as [_ Hhist].
  { apply list_elem_of_lookup. by exists 1. }
  { reflexivity. }
  split; [|rewrite Hcount; reflexivity].
  apply Hhist. discriminate.
Defined.

(** ** Undoing a creation *)

(** X6. Deleting the identifier of a package that the create path has just
    put in front removes that package, and with it every older package
    that happens to carry the same identifier: the collection is the old
    one again exactly when the generator had drawn an identifier that no
    older package carries. *)
Theorem delete_after_create
    (l : list Package.t) (r : ParseResult.t) (tn sourceText : string) (w : World) :
  ParseResult.trackingNumber r = Some tn → tn ≠ "" →
  (∀ p, p ∈ l → Package.trackingNumber p ≠ tn) →
  ∃ newPkg w',
    reconcile (Some r) sourceText l w = Some ((newPkg :: l, true), w') ∧
    Package.id newPkg = random_id w (random_draws w) ∧
    onDelete (Package.id newPkg) (newPkg :: l) = onDelete (Package.id newPkg) l ∧
    (onDelete (Package.id newPkg) (newPkg :: l) = l ↔
       ∀ p, p ∈ l → Package.id p ≠ random_id w (random_draws w)).
Proof.
  intros Hr Hne Hnone.
  exists (created r tn sourceText w), (tick (tick (draw w))).
  split; [by eapply reconcile_run_sound, run_create|].
  split; [done|].
  assert (onDelete (Package.id (created r tn sourceText w))
            (created r tn sourceText w :: l)
          = onDelete (random_id w (random_draws w)) l) as Hdel.
  { rewrite onDelete_cons. simpl. by rewrite String.eqb_refl. }
  split; [exact Hdel|]. rewrite Hdel. split.
  - intros Heq p Hin. rewrite <- Heq, onDelete_filter in Hin.
    by apply list_elem_of_filter in Hin as [? _].
  - apply onDelete_absent.
Qed.

Lemma delete_after_create_witness :
  ∃ newPkg w',
    reconcile (Some sample_result) "hello" [other_package] sample_world
      = Some (([newPkg; other_package], true), w') ∧
    onDelete (Package.id newPkg) [newPkg; other_package] = [other_package].
Proof.
  destruct (delete_after_create [other_package] sample_result "TNT123" "hello"
              sample_world) as (newPkg & w' & Hrun & Hid & _ & Hundo);
    [reflexivity|discriminate| |].
  - intros p Hin. apply list_elem_of_singleton in Hin as ->. discriminate.
  - exists newPkg, w'. split; [exact Hrun|].
    apply Hundo. intros p Hin. apply list_elem_of_singleton in Hin as ->.
    discriminate.
Defined.

(** ** What every sequence of operations keeps *)

Lemma js_or_nonempty (a : option string) (b : string) :
  b ≠ "" → js_or a b ≠ "".
Proof.
  intros Hb. destruct a as [s|]; simpl; [|done].
  by destruct (String.eqb_spec s "").
Qed.

Lemma onToggleStatus_unique (id : string) (l : list Package.t) :
  unique_tracking l → unique_tracking (onToggleStatus id l).
Proof.
  rewrite !unique_tracking_NoDup. by rewrite onToggleStatus_trackingNumbers.
Qed.

Lemma onDelete_unique (id : string) (l : list Package.t) :
  unique_tracking l → unique_tracking (onDelete id l).
Proof.
  rewrite !unique_tracking_NoDup. intros Hnodup.
  apply (sublist_NoDup _ (Package.trackingNumber <$> l)); [done|].
  apply fmap_sublist, onDelete_sublist.
Qed.

Lemma reconcile_run_well_kept result sourceText l w l' accepted w' :
  reconcile_run result sourceText l w l' accepted w' →
  well_kept l → well_kept l'.
Proof.
  intros Hrun [Huniq Hfields].
  split; [by eapply reconcile_run_unique|].
  destruct Hrun as [Hrej|r tn i old -> Hr Hne Hfirst|r tn -> Hr Hne Hnone].
  - done.
  - destruct Hfirst as (Hi & Htn & _).
    destruct (Hfields old) as [Hold_tn Hold_sender];
      [by eapply list_elem_of_lookup_2|].
    intros p Hin. apply list_elem_of_lookup in Hin as [j Hj].
    apply list_lookup_insert_Some in Hj as [(-> & <- & _)|[_ Hj]].
    + split; [done|]. by apply js_or_nonempty.
    + apply Hfields. by eapply list_elem_of_lookup_2.
  - intros p Hin. apply elem_of_cons in Hin as [->|Hin]; [|by apply Hfields].
    split; [done|]. by apply js_or_nonempty.
Qed.

Lemma onToggleStatus_well_kept (id : string) (l : list Package.t) :
  well_kept l → well_kept (onToggleStatus id l).
Proof.
  intros [Huniq Hfields]. split; [by apply onToggleStatus_unique|].
  intros p Hin. unfold onToggleStatus in Hin. rewrite array_map_fmap in Hin.
  apply list_elem_of_fmap in Hin as (q & -> & Hq).
  destruct (Hfields q Hq). by destruct (String.eqb (Package.id q) id).
Qed.

Lemma onDelete_well_kept (id : string) (l : list Package.t) :
  well_kept l → well_kept (onDelete id l).
Proof.
  intros [Huniq Hfields]. split; [by apply onDelete_unique|].
  intros p Hin. rewrite onDelete_filter in Hin.
  apply list_elem_of_filter in Hin as [_ Hin]. by apply Hfields.
Qed.

Lemma apply_ops_well_kept (ops : list Op) (l : list Package.t) (w : World) :
  well_kept l →
  ∃ l' w', apply_ops ops l w = Some (l', w') ∧ well_kept l'.
Proof.
  revert l w. induction ops as [|op ops IH]; intros l w Hkept.
  - by exists l, w.
  - simpl. unfold mbind, M_bind.
    destruct op as [result sourceText|id|id]; simpl.
    + destruct (reconcile_run_complete result sourceText l w)
        as (l1 & accepted & w1 & Hrun).
      unfold mbind, M_bind.
      rewrite (reconcile_run_sound _ _ _ _ _ _ _ Hrun). simpl.
      apply IH. by eapply reconcile_run_well_kept.
    + apply IH. by apply onToggleStatus_well_kept.
    + apply IH. by apply onDelete_well_kept.
Qed.

Lemma well_kept_nil : well_kept [].
Proof.
  split.
  - intros i j p q Hp. by rewrite lookup_nil in Hp.
  - intros p Hin. by apply elem_of_nil in Hin.
Qed.

(** X7. From a collection in which tracking numbers are unique and every
    package has a non-empty tracking number and a non-empty sender, every
    sequence of reconciliations, toggles and deletions runs to the end
    and gives such a collection again. *)
Theorem operations_keep_collection_well_kept
    (ops : list Op) (l : list Package.t) (w : World) :
  unique_tracking l →
  (∀ p, p ∈ l → Package.trackingNumber p ≠ "" ∧ Package.sender p ≠ "") →
  ∃ l' w',
    apply_ops ops l w = Some (l', w') ∧
    unique_tracking l' ∧
    (∀ p, p ∈ l' → Package.trackingNumber p ≠ "" ∧ Package.sender p ≠ "").
Proof.
  intros Huniq Hfields.
  destruct (apply_ops_well_kept ops l w) as (l' & w' & Hrun & Huniq' & Hfields');
    [by split|].
  exists l', w'. by split_and!.
Qed.

Lemma operations_keep_collection_well_kept_witness :
  ∃ l' w',
    apply_ops sample_ops [other_package] sample_world = Some (l', w') ∧
    unique_tracking l'.
Proof.
  destruct (operations_keep_collection_well_kept sample_ops [other_package]
              sample_world) as (l' & w' & Hrun & Huniq & _).
  - intros [|i] [|j] p q Hp Hq _; simpl in *; try discriminate. reflexivity.
  - intros p Hin. apply list_elem_of_singleton in Hin as ->.
    split; discriminate.
  - by exists l', w'.
Defined.

(** ** The card of a package *)

(** X8. For every collection that a sequence of reconciliations, toggles
    and deletions builds from the empty collection, the card of each
    package shows the sender and the tracking number of the package
    itself: the fall-back texts of the card are never shown. *)
Theorem card_shows_own_texts (ops : list Op) (w : World) :
  ∃ l w',
    apply_ops ops [] w = Some (l, w') ∧
    ∀ p, p ∈ l →
      PackageCard.heading (PackageCard.render p) = Package.sender p ∧
      PackageCard.trackingLabel (PackageCard.render p)
        = ("#" ++ Package.trackingNumber p)%string.
Proof.
  destruct (apply_ops_well_kept ops [] w well_kept_nil)
    as (l & w' & Hrun & _ & Hfields).
  exists l, w'. split; [done|].
  intros p Hin. destruct (Hfields p Hin) as [Htn Hsender].
  apply String.eqb_neq in Htn, Hsender.
  unfold PackageCard.render, js_or_string; simpl. by rewrite Htn, Hsender.
Qed.

(** X9. A card in the "current" list is never dimmed and never has the
    green dot; a card in the "history" list is always dimmed, with the
    green dot and the filled button.  A toggle always changes the look of
    the card: dimmed becomes plain and plain becomes dimmed. *)
Theorem card_look_follows_view (l : list Package.t) :
  (∀ p, p ∈ filteredPackages TabType.current l →
     PackageCard.cardClass (PackageCard.render p) = "hover:shadow-md" ∧
     PackageCard.dotClass (PackageCard.render p) ≠ "bg-green-500") ∧
  (∀ p, p ∈ filteredPackages TabType.history l →
     PackageCard.cardClass (PackageCard.render p) = "opacity-60 scale-[0.98]" ∧
     PackageCard.dotClass (PackageCard.render p) = "bg-green-500" ∧
     PackageCard.buttonClass (PackageCard.render p)
       = "bg-blue-500 border-blue-500 text-white") ∧
  (∀ p,
     PackageCard.cardClass
       (PackageCard.render (with_status p (toggled (Package.status p))))
     ≠ PackageCard.cardClass (PackageCard.render p)).
Proof.
  rewrite filteredPackages_current, filteredPackages_history.
  split_and!.
  - intros p [Hs _]%list_elem_of_filter.
    unfold PackageCard.render; simpl.
    destruct (Package.status p); simpl; [done| |done]; split; done.
  - intros p [Hs _]%list_elem_of_filter.
    unfold PackageCard.render; simpl. by rewrite Hs.
  - intros p. unfold PackageCard.render; simpl.
    by destruct (Package.status p).
Qed.

Lemma card_look_follows_view_witness :
  PackageCard.cardClass (PackageCard.render other_package)
    = "opacity-60 scale-[0.98]" ∧
  PackageCard.cardClass (PackageCard.render sample_package) = "hover:shadow-md".
Proof.
  destruct (card_look_follows_view [other_package; sample_package])
    as (Hcur & Hhist & _).
  split.
  - apply Hhist. apply list_elem_of_lookup. by exists 0.
  - apply Hcur. apply list_elem_of_lookup. by exists 0.
Defined.

(** ** Repeated extractions of one tracking number *)

Lemma reconcile_run_present result sourceText l w l' w' r tn :
  reconcile_run result sourceText l w l' true w' →
  result = Some r → ParseResult.trackingNumber r = Some tn →
  ∃ p, p ∈ l' ∧ Package.trackingNumber p = tn.
Proof.
  intros Hrun -> Hr.
  inversion Hrun as [|r' tn' i old [= <-] Hr' Hne Hfirst
                     |r' tn' [= <-] Hr' Hne Hnone]; subst.
  - assert (tn' = tn) as -> by congruence.
    destruct Hfirst as (Hi & Htn & _).
    exists (merged old r (date_iso w (date_reads w))). split; [|done].
    apply list_elem_of_insert. by eapply lookup_lt_Some.
  - assert (tn' = tn) as -> by congruence.
    exists (created r tn sourceText w). split; [apply list_elem_of_here|done].
Qed.

(** X10. Two extractions of the same non-empty tracking number, whatever
    their other fields, their source texts and the clock: both are
    accepted, and the second never adds a package.  It rewrites, in
    place, the first package with that tracking number: the status is
    that of the second result, the sender that of the second result
    unless it is null or empty, and identifier, carrier, received date and
    original text stay those the package had after the first. *)
Theorem reconcile_again_merges
    (l : list Package.t) (r1 r2 : ParseResult.t) (tn src1 src2 : string)
    (w : World) :
  ParseResult.trackingNumber r1 = Some tn →
  ParseResult.trackingNumber r2 = Some tn → tn ≠ "" →
  ∃ l1 w1 l2 w2 i p1 p2,
    reconcile (Some r1) src1 l w = Some ((l1, true), w1) ∧
    reconcile (Some r2) src2 l1 w1 = Some ((l2, true), w2) ∧
    first_match tn l1 i p1 ∧
    l2 = <[i := p2]> l1 ∧
    length l2 = length l1 ∧
    Package.status p2 = ParseResult.status r2 ∧
    Package.sender p2 = js_or (ParseResult.sender r2) (Package.sender p1) ∧
    Package.id p2 = Package.id p1 ∧
    Package.trackingNumber p2 = tn ∧
    Package.carrier p2 = Package.carrier p1 ∧
    Package.receivedDate p2 = Package.receivedDate p1 ∧
    Package.originalText p2 = Package.originalText p1.
Proof.
  intros Hr1 Hr2 Hne.
  destruct (reconcile_run_complete (Some r1) src1 l w)
    as (l1 & accepted & w1 & Hrun1).
  assert (accepted = true) as ->.
  { destruct Hrun1 as [[Hrej|Hrej]| |]; [congruence..|done|done]. }
  destruct (reconcile_run_present _ _ _ _ _ _ r1 tn Hrun1 eq_refl Hr1)
    as (p & Hin & Hp).
  destruct (first_match_exists tn l1) as (i & p1 & Hfirst); [by exists p|].
  exists l1, w1, (<[i := merged p1 r2 (date_iso w1 (date_reads w1))]> l1),
    (tick w1), i, p1, (merged p1 r2 (date_iso w1 (date_reads w1))).
  split; [by apply reconcile_run_sound|].
  split; [by eapply reconcile_run_sound, run_update|].
  destruct Hfirst as (Hi & Htn & Hleast).
  split_and!; try done. apply length_insert.
Qed.

Lemma reconcile_again_merges_witness :
  ∃ l1 w1 l2 w2,
    reconcile (Some sample_result) "hello" [other_package] sample_world
      = Some ((l1, true), w1) ∧
    reconcile (Some (ParseResult.mk (Some "TNT123") DAO (Some "ACME") PICKED_UP))
      "Screenshot: a.png" l1 w1 = Some ((l2, true), w2) ∧
    length l2 = length l1.
Proof.
  destruct (reconcile_again_merges [other_package] sample_result
              (ParseResult.mk (Some "TNT123") DAO (Some "ACME") PICKED_UP)
              "TNT123" "hello" "Screenshot: a.png" sample_world)
    as (l1 & w1 & l2 & w2 & i & p1 & p2 & Hone & Htwo & _ & _ & Hlen & _);
    [reflexivity|reflexivity|discriminate|].
  exists l1, w1, l2, w2. split_and!; assumption.
Defined.

(** X11. On the update path the source text and the carrier of the result
    have no effect at all: when the tracking number is in the collection,
    two results that agree on tracking number, sender and status give the
    same collection and the same world, whatever their carriers and
    whatever the two source texts. *)
Theorem update_ignores_source_and_carrier
    (l : list Package.t) (r r' : ParseResult.t) (tn src src' : string)
    (w : World) :
  ParseResult.trackingNumber r = Some tn → tn ≠ "" →
  (∃ p, p ∈ l ∧ Package.trackingNumber p = tn) →
  ParseResult.trackingNumber r' = Some tn →
  ParseResult.sender r' = ParseResult.sender r →
  ParseResult.status r' = ParseResult.status r →
  reconcile (Some r') src' l w = reconcile (Some r) src l w ∧
  ∃ l' w', reconcile (Some r) src l w = Some ((l', true), w').
Proof.
  intros Hr Hne Hex Hr' Hsender Hstatus.
  destruct (first_match_exists tn l Hex) as (i & old & Hfirst).
  pose proof (reconcile_run_sound _ src _ w _ _ _
                (run_update (Some r) src l w r tn i old eq_refl Hr Hne Hfirst))
    as Hrun.
  pose proof (reconcile_run_sound _ src' _ w _ _ _
                (run_update (Some r') src' l w r' tn i old eq_refl Hr' Hne Hfirst))
    as Hrun'.
  split; [|by eexists _, _].
  rewrite Hrun, Hrun'. unfold merged. by rewrite Hsender, Hstatus.
Qed.

Lemma update_ignores_source_and_carrier_witness :
  reconcile (Some (ParseResult.mk (Some "TNT123") UPS None READY_FOR_PICKUP))
    "Screenshot: a.png" [other_package; sample_package] sample_world
  = reconcile (Some sample_result) "hello" [other_package; sample_package]
      sample_world.
Proof.
  apply (update_ignores_source_and_carrier [other_package; sample_package]
           sample_result
           (ParseResult.mk (Some "TNT123") UPS None READY_FOR_PICKUP)
           "TNT123" "hello" "Screenshot: a.png" sample_world);
    try reflexivity; [discriminate|].
  exists sample_package. split; [|reflexivity].
  apply list_elem_of_lookup. by exists 1.
Defined.

(** ** The submit handlers *)





(** ** Token and sync time in memory and in storage *)



(** ** Extraction after a deletion or a toggle *)

(** X15. Deletion leaves no trace: when tracking numbers are unique and
    the package with a given tracking number has been deleted, the next
    extraction of that tracking number takes the create path and puts a
    new package in front, with a new identifier, a new received date and
    the new source text. *)
Theorem reextract_after_delete
    (l : list Package.t) (r : ParseResult.t) (tn sourceText : string)
    (w : World) (i : nat) (old : Package.t) :
  ParseResult.trackingNumber r = Some tn → tn ≠ "" →
  unique_tracking l →
  l !! i = Some old → Package.trackingNumber old = tn →
  ∃ newPkg w',
    reconcile (Some r) sourceText (onDelete (Package.id old) l) w
      = Some ((newPkg :: onDelete (Package.id old) l, true), w') ∧
    Package.trackingNumber newPkg = tn ∧
    Package.id newPkg = random_id w (random_draws w) ∧
    Package.receivedDate newPkg = date_iso w (date_reads w) ∧
    Package.originalText newPkg = sourceText.
Proof.
  intros Hr Hne Huniq Hi Htn.
  exists (created r tn sourceText w), (tick (tick (draw w))).
  split; [|done].
  eapply reconcile_run_sound, run_create; [done..|].
  intros q Hq Hq_tn. rewrite onDelete_filter in Hq.
  apply list_elem_of_filter in Hq as [Hid Hq].
  apply list_elem_of_lookup in Hq as [j Hj].
  assert (j = i) as -> by (eapply Huniq; [done..|congruence]).
  congruence.
Qed.

Lemma reextract_after_delete_witness :
  ∃ newPkg w',
    reconcile (Some sample_result) "hello"
      (onDelete "a1b2c3d4e" [other_package; sample_package]) sample_world
      = Some (([newPkg; other_package], true), w') ∧
    Package.id newPkg = "k3j9x0q2a".
Proof.
  destruct (reextract_after_delete [other_package; sample_package]
              sample_result "TNT123" "hello" sample_world 1 sample_package)
    as (newPkg & w' & Hrun & _ & Hid & _);
    [reflexivity|discriminate| |reflexivity|reflexivity|].
  - intros [|[|i]] [|[|j]] p q Hp Hq Heq; simpl in *;
      try discriminate; try reflexivity.
    + injection Hp as <-. injection Hq as <-. discriminate.
    + injection Hp as <-. injection Hq as <-. discriminate.
  - exists newPkg, w'. split; [exact Hrun|exact Hid].
Defined.

Lemma onToggleStatus_single (l : list Package.t) (i : nat) (old : Package.t) :
  l !! i = Some old →
  (∀ j q, l !! j = Some q → j ≠ i → Package.id q ≠ Package.id old) →
  onToggleStatus (Package.id old) l
    = <[i := with_status old (toggled (Package.status old))]> l.
Proof.
  intros Hi Hothers. apply list_eq. intros j.
  rewrite onToggleStatus_lookup.
  destruct (decide (j = i)) as [->|Hne].
  - rewrite list_lookup_insert_eq by (by eapply lookup_lt_Some).
    rewrite Hi. simpl. by rewrite String.eqb_refl.
  - rewrite list_lookup_insert_ne by done.
    destruct (l !! j) as [q|] eqn:Hj; [|done]. simpl.
    apply (Hothers j q Hj) in Hne. apply String.eqb_neq in Hne.
    by rewrite Hne.
Qed.

(** X16. An extraction overrides a manual toggle: when the package with
    the extracted tracking number is the only one with its identifier,
    reconciling after a toggle of that package gives exactly what
    reconciling without the toggle gives. *)
Theorem reextract_overrides_toggle
    (l : list Package.t) (r : ParseResult.t) (tn sourceText : string)
    (w : World) (i : nat) (old : Package.t) :
  ParseResult.trackingNumber r = Some tn → tn ≠ "" →
  first_match tn l i old →
  (∀ j q, l !! j = Some q → j ≠ i → Package.id q ≠ Package.id old) →
  reconcile (Some r) sourceText (onToggleStatus (Package.id old) l) w
    = reconcile (Some r) sourceText l w ∧
  ∃ l' w', reconcile (Some r) sourceText l w = Some ((l', true), w').
Proof.
  intros Hr Hne Hfirst Hothers.
  pose proof Hfirst as (Hi & Htn & _).
  rewrite (onToggleStatus_single l i old Hi Hothers).
  set (flipped := with_status old (toggled (Package.status old))).
  assert (first_match tn (<[i := flipped]> l) i flipped) as Hfirst'
    by (by apply (first_match_insert tn l i old flipped)).
  rewrite (reconcile_run_sound _ _ _ _ _ _ _
             (run_update (Some r) sourceText _ w r tn i flipped
                eq_refl Hr Hne Hfirst')).
  rewrite (reconcile_run_sound _ _ _ _ _ _ _
             (run_update (Some r) sourceText _ w r tn i old
                eq_refl Hr Hne Hfirst)).
  split; [|by eexists _, _].
  by rewrite list_insert_insert_eq.
Qed.

Lemma reextract_overrides_toggle_witness :
  reconcile (Some sample_result) "hello"
    (onToggleStatus "a1b2c3d4e" [other_package; sample_package]) sample_world
  = reconcile (Some sample_result) "hello" [other_package; sample_package]
      sample_world.
Proof.
  apply (reextract_overrides_toggle [other_package; sample_package]
           sample_result "TNT123" "hello" sample_world 1 sample_package).
  - reflexivity.
  - discriminate.
  - split_and!; [reflexivity..|].
    intros [|[|j]] y Hy Hlt; [|lia..].
    injection Hy as <-. discriminate.
  - intros [|[|j]] q Hq Hne; [|done|done].
    injection Hq as <-. discriminate.
Defined.

(** ** What the requested state update does to a newer state *)

(** X17. The two paths treat the state differently.  On the update path
    the handler asks React to set the collection to a copy of the
    collection of its own render: whatever the state is by then is
    replaced.  On the create path it asks for the new package to be put in
    front of whatever the state is by then. *)
Theorem update_replaces_create_prepends
    (packages : list Package.t) (r : ParseResult.t) (tn sourceText : string)
    (w : World) :
  ParseResult.trackingNumber r = Some tn → tn ≠ "" →
  ∃ act w',
    processParsedResult packages (Some r) sourceText w
      = Some ((Some act, true), w') ∧
    ((∃ p, p ∈ packages ∧ Package.trackingNumber p = tn) →
       ∃ i old new,
         first_match tn packages i old ∧
         Package.status new = ParseResult.status r ∧
         ∀ prev, dispatch act prev = <[i := new]> packages) ∧
    ((∀ p, p ∈ packages → Package.trackingNumber p ≠ tn) →
       ∃ newPkg,
         Package.trackingNumber newPkg = tn ∧
         ∀ prev, dispatch act prev = newPkg :: prev).
Proof.
  intros Hr Hne.
  destruct (decide (Exists (λ p, Package.trackingNumber p = tn) packages))
    as [Hex|Hnex].
  - apply Exists_exists in Hex.
    destruct (first_match_exists tn packages Hex) as (i & old & Hfirst).
    eexists _, _. split; [by eapply processParsedResult_update|]. split.
    + intros _. by exists i, old, (merged old r (date_iso w (date_reads w))).
    + intros Hnone. destruct Hex as (p & Hin & Hp). by destruct (Hnone p).
  - assert (∀ p, p ∈ packages → Package.trackingNumber p ≠ tn) as Hnone.
    { intros p Hin Hp. apply Hnex, Exists_exists. eauto. }
    eexists _, _. split; [by eapply processParsedResult_create|]. split.
    + intros (p & Hin & Hp). by destruct (Hnone p).
    + intros _. by exists (created r tn sourceText w).
Qed.

Lemma update_replaces_create_prepends_witness :
  ∃ act w',
    processParsedResult [other_package; sample_package] (Some sample_result)
      "hello" sample_world = Some ((Some act, true), w') ∧
    length (dispatch act []) = 2.
Proof.
  destruct (update_replaces_create_prepends [other_package; sample_package]
              sample_result "TNT123" "hello" sample_world)
    as (act & w' & Hrun & Hupdate & _); [reflexivity|discriminate|].
  exists act, w'. split; [exact Hrun|].
  destruct Hupdate as (i & old & new & _ & _ & Hset).
  - exists sample_package. split; [|reflexivity].
    apply list_elem_of_lookup. by exists 1.
  - rewrite Hset. by rewrite length_insert.
Defined.
